(** * Complex types walkthrough (exercises/code/python/05_complex_types.py)

    The script is a straight-line client of an external dataframe engine.
    It is embedded as a program over the engine's calls; the engine itself
    (connection service, session, readers, analyser, console) is a
    parameter: its handle types and the way it answers each call are
    section variables, so every statement below holds for every engine. *)

From Stdlib Require Import String List ZArith Bool Lia.
Import ListNotations.
Set Warnings "-register-all,-notation-for-abbreviation".
Local Open Scope string_scope.
Local Open Scope list_scope.

(** ** Column expressions

    A PySpark [Column] is an unevaluated expression tree.  The constructors
    are the names the script imports from [pyspark.sql.functions] together
    with the three [Column] methods it uses: index notation [c[0]], dot
    notation [c.make] and [alias].  [other] stands for the rest of the
    engine's library, any other function or [Column] method by its name
    ([collect_list], [collect_set], [cast], ...); the script uses none. *)

(** Python literals passed as plain arguments. *)
Inductive Value : Type :=
| VInt (z : Z)
| VStr (s : string).

Inductive Column : Type :=
| name (s : string)                          (* a [str] naming a column *)
| col (s : string)
| lit (v : Value)
| array (cols : list Column)
| size (c : Column)
| sort_array (c : Column) (asc : bool)
| array_contains (c : Column) (v : Value)
| explode (c : Column)
| posexplode (c : Column)
| create_map (cols : list Column)
| struct (cols : list Column)
| to_json (c : Column)
| getitem (c : Column) (key : Value)         (* [c[key]] *)
| getattr (c : Column) (field : string)      (* [c.field] *)
| alias (c : Column) (names : list string)
| other (operation : string) (args : list Column).

(** The functions and methods a column expression is built with. *)
Inductive Fn : Type :=
| f_col | f_lit | f_array | f_size | f_sort_array | f_array_contains
| f_explode | f_posexplode | f_create_map | f_struct | f_to_json
| f_getitem | f_getattr | f_alias
| f_other (operation : string).

Definition Fn_eqb (a b : Fn) : bool :=
  match a, b with
  | f_col, f_col | f_lit, f_lit | f_array, f_array | f_size, f_size
  | f_sort_array, f_sort_array | f_array_contains, f_array_contains
  | f_explode, f_explode | f_posexplode, f_posexplode
  | f_create_map, f_create_map | f_struct, f_struct | f_to_json, f_to_json
  | f_getitem, f_getitem | f_getattr, f_getattr | f_alias, f_alias => true
  | f_other a, f_other b => String.eqb a b
  | _, _ => false
  end.

Fixpoint functions_of (c : Column) : list Fn :=
  let all := fix all (cs : list Column) : list Fn :=
    match cs with
    | [] => []
    | c :: cs => functions_of c ++ all cs
    end in
  match c with
  | name _ => []
  | col _ => [f_col]
  | lit _ => [f_lit]
  | array cs => f_array :: all cs
  | size c => f_size :: functions_of c
  | sort_array c _ => f_sort_array :: functions_of c
  | array_contains c _ => f_array_contains :: functions_of c
  | explode c => f_explode :: functions_of c
  | posexplode c => f_posexplode :: functions_of c
  | create_map cs => f_create_map :: all cs
  | struct cs => f_struct :: all cs
  | to_json c => f_to_json :: functions_of c
  | getitem c _ => f_getitem :: functions_of c
  | getattr c _ => f_getattr :: functions_of c
  | alias c _ => f_alias :: functions_of c
  | other operation cs => f_other operation :: all cs
  end.

(** ** Configuration

    [from env import S3_ROOT, S3_HOME, CONNECTION_NAME]: the [env] module is
    not part of the sources, its three values are parameters. *)
Record Env : Type := {
  S3_ROOT : string;
  S3_HOME : string;
  CONNECTION_NAME : string
}.

Definition with_S3_ROOT (e : Env) (v : string) : Env :=
  {| S3_ROOT := v; S3_HOME := S3_HOME e; CONNECTION_NAME := CONNECTION_NAME e |}.
Definition with_S3_HOME (e : Env) (v : string) : Env :=
  {| S3_ROOT := S3_ROOT e; S3_HOME := v; CONNECTION_NAME := CONNECTION_NAME e |}.
Definition with_CONNECTION_NAME (e : Env) (v : string) : Env :=
  {| S3_ROOT := S3_ROOT e; S3_HOME := S3_HOME e; CONNECTION_NAME := v |}.

(** ** Steps of the walkthrough

    The three complex-type categories and the kinds of step a run is made
    of. *)
Inductive Category : Type := Array | Map | Struct.

Definition Category_eqb (a b : Category) : bool :=
  match a, b with
  | Array, Array | Map, Map | Struct, Struct => true
  | _, _ => false
  end.

Definition category_of (c : Column) : option Category :=
  match c with
  | array _ => Some Array
  | create_map _ => Some Map
  | struct _ => Some Struct
  | _ => None
  end.

Inductive Step : Type :=
| Connect                          (* connection, session *)
| Load                             (* read_csv *)
| Derive (cat : option Category)   (* withColumn *)
| Project                          (* select *)
| Schema                           (* printSchema *)
| Sample                           (* show, head *)
| Stop
| Persist.

(** Sample displays, each optionally preceded by a projection; returns what
    follows them. *)
Fixpoint samples (l : list Step) : list Step :=
  match l with
  | Sample :: l' => samples l'
  | Project :: Sample :: l' => samples l'
  | _ => l
  end.

(** One category's section: derive the column, print the schema, display
    samples. *)
Definition category_section (cat : Category) (l : list Step)
  : option (list Step) :=
  match l with
  | Derive (Some c) :: Project :: Schema :: Sample :: rest =>
      if Category_eqb c cat then Some (samples rest) else None
  | _ => None
  end.

(** connect, load three datasets, array, map, struct, stop. *)
Definition flat_flow (l : list Step) : bool :=
  match l with
  | Connect :: Connect :: Load :: Load :: Load :: l1 =>
      match category_section Array l1 with
      | Some l2 =>
          match category_section Map l2 with
          | Some l3 =>
              match category_section Struct l3 with
              | Some [Stop] => true
              | _ => false
              end
          | None => false
          end
      | None => false
      end
  | _ => false
  end.

(** The steps of a complete run of the script. *)
Definition script_steps : list Step :=
  [Connect; Connect; Load; Load; Load]
  ++ [Derive (Some Array); Project; Schema; Sample]
  ++ concat (repeat [Project; Sample] 7)
  ++ [Derive (Some Map); Project; Schema; Sample]
  ++ concat (repeat [Project; Sample] 4)
  ++ [Derive (Some Struct); Project; Schema; Sample; Sample]
  ++ concat (repeat [Project; Sample] 2)
  ++ [Stop].

(** The three [read_csv] requests: path, [header], [inferSchema]. *)
Definition script_reads (env : Env) : list (string * bool * bool) :=
  [ ((S3_ROOT env ++ "/duocar/raw/rides/")%string, true, true);
    ((S3_ROOT env ++ "/duocar/raw/drivers/")%string, true, true);
    ((S3_ROOT env ++ "/duocar/raw/riders/")%string, true, true) ].

(** The nine primitives the specification lists, and the other column
    constructors and methods found in the script. *)
Definition listed_functions : list Fn :=
  [f_array; f_create_map; f_struct; f_explode; f_posexplode; f_sort_array;
   f_array_contains; f_size; f_to_json].

Definition auxiliary_functions : list Fn :=
  [f_col; f_lit; f_getitem; f_getattr; f_alias].

(** The new column of each section. *)
Definition script_columns : list (string * Column) :=
  [ ("vehicle_array", array [name "vehicle_make"; name "vehicle_model"]);
    ("vehicle_map",
     create_map [lit (VStr "make"); name "vehicle_make";
                 lit (VStr "model"); name "vehicle_model"]);
    ("vehicle_struct",
     struct [alias (col "vehicle_make") ["make"];
             alias (col "vehicle_model") ["model"]]) ].

(** ** Engine calls, programs and runs *)

Inductive Outcome (Exn A : Type) : Type :=
| Done (a : A)
| Raised (e : Exn).
Arguments Done {Exn A} a.
Arguments Raised {Exn A} e.

Section Engine.

(** Handles handed out by the engine, and the exceptions it raises. *)
Variables Conn Session DataFrame Row Exn : Type.

(** The engine's interface.  The first nine calls are the ones the script
    issues; [write_csv] and [saveAsTable] are the engine's writers
    ([DataFrame.write]), listed so that persisting is expressible. *)
Inductive Call : Type -> Type :=
| get_connection (connection_name : string) : Call Conn
| get_spark_session (conn : Conn) : Call Session
| read_csv (spark : Session) (path : string) (header inferSchema : bool)
  : Call DataFrame
| withColumn (df : DataFrame) (colName : string) (c : Column) : Call DataFrame
| select (df : DataFrame) (cols : list Column) : Call DataFrame
| printSchema (df : DataFrame) : Call unit
| show (df : DataFrame) (n : Z) (truncate : bool) : Call unit
| head (df : DataFrame) (n : Z) : Call (list Row)
| stop (spark : Session) : Call unit
| write_csv (df : DataFrame) (path : string) : Call unit
| saveAsTable (df : DataFrame) (table : string) : Call unit.

(** Programs: a call followed by the rest of the program, or one of
    Python's two guarding constructs. *)
Inductive Prog (A : Type) : Type :=
| Ret (a : A)
| Vis (X : Type) (c : Call X) (k : X -> Prog A)
| TryExcept (B : Type) (body : Prog B) (handler : Exn -> Prog B)
            (k : B -> Prog A)
| TryFinally (B : Type) (body : Prog B) (cleanup : Prog unit)
             (k : B -> Prog A).
Arguments Ret {A} a.
Arguments Vis {A X} c k.
Arguments TryExcept {A B} body handler k.
Arguments TryFinally {A B} body cleanup k.

Fixpoint bind {A B : Type} (p : Prog A) (f : A -> Prog B) : Prog B :=
  match p with
  | Ret a => f a
  | Vis c k => Vis c (fun x => bind (k x) f)
  | TryExcept body handler k =>
      TryExcept body handler (fun b => bind (k b) f)
  | TryFinally body cleanup k =>
      TryFinally body cleanup (fun b => bind (k b) f)
  end.

Definition call {X : Type} (c : Call X) : Prog X := Vis c (fun x => Ret x).

(** One entry of the run's log: the call and the engine's answer. *)
Inductive Event : Type :=
| event (X : Type) (c : Call X) (r : Exn + X).
Arguments event {X} c r.

(** An engine is a state [World] and the way it answers each call: a new
    state and either an exception or the call's value. *)
Definition Handler (World : Type) : Type :=
  forall X : Type, Call X -> World -> World * (Exn + X).

(** [run handle p w log] executes [p] from world [w]; [log] holds the
    events so far, newest first.  A raised exception ends the enclosing
    program unless a guarding construct takes it. *)
Fixpoint run {World : Type} (handle : Handler World) {A : Type}
    (p : Prog A) (w : World) (log : list Event)
  : World * list Event * Outcome Exn A :=
  match p with
  | Ret a => (w, log, Done a)
  | Vis c k =>
      match handle _ c w with
      | (w', inl e) => (w', event c (inl e) :: log, Raised e)
      | (w', inr x) => run handle (k x) w' (event c (inr x) :: log)
      end
  | TryExcept body handler k =>
      match run handle body w log with
      | (w', log', Done b) => run handle (k b) w' log'
      | (w', log', Raised e) =>
          match run handle (handler e) w' log' with
          | (w'', log'', Done b) => run handle (k b) w'' log''
          | (w'', log'', Raised e') => (w'', log'', Raised e')
          end
      end
  | TryFinally body cleanup k =>
      match run handle body w log with
      | (w', log', Done b) =>
          match run handle cleanup w' log' with
          | (w'', log'', Done _) => run handle (k b) w'' log''
          | (w'', log'', Raised e') => (w'', log'', Raised e')
          end
      | (w', log', Raised e) =>
          match run handle cleanup w' log' with
          | (w'', log'', Done _) => (w'', log'', Raised e)
          | (w'', log'', Raised e') => (w'', log'', Raised e')
          end
      end
  end.

(** *** The script *)

Notation "x <- c ;; k" := (Vis c (fun x => k))
  (at level 61, c at next level, right associativity).
Notation "c ;; k" := (Vis c (fun _ => k))
  (at level 61, right associativity).
Notation "p ;;; q" := (bind p (fun _ => q))
  (at level 61, right associativity).

(** [## Arrays], lines 49-101. *)
Definition arrays (drivers : DataFrame) : Prog unit :=
  t <- withColumn drivers "vehicle_array"
         (array [name "vehicle_make"; name "vehicle_model"]) ;;
  drivers_array <-
    select t [name "vehicle_make"; name "vehicle_model"; name "vehicle_array"] ;;
  printSchema drivers_array ;;
  show drivers_array 5 false ;;
  t <- select drivers_array
         [name "vehicle_array"; getitem (col "vehicle_array") (VInt 0)] ;;
  show t 5 false ;;
  t <- select drivers_array
         [name "vehicle_array"; size (name "vehicle_array")] ;;
  show t 5 false ;;
  t <- select drivers_array
         [name "vehicle_array"; sort_array (name "vehicle_array") true] ;;
  show t 5 false ;;
  t <- select drivers_array
         [name "vehicle_array";
          array_contains (name "vehicle_array") (VStr "Subaru")] ;;
  show t 5 false ;;
  t <- select drivers_array
         [name "vehicle_array"; explode (name "vehicle_array")] ;;
  show t 5 false ;;
  t <- select drivers_array
         [name "vehicle_array"; posexplode (name "vehicle_array")] ;;
  show t 5 false ;;
  t <- select drivers_array
         [name "vehicle_array";
          alias (posexplode (name "vehicle_array")) ["position"; "column"]] ;;
  show t 5 false ;;
  Ret tt.

(** [## Maps], lines 104-124. *)
Definition maps (drivers : DataFrame) : Prog unit :=
  t <- withColumn drivers "vehicle_map"
         (create_map [lit (VStr "make"); name "vehicle_make";
                      lit (VStr "model"); name "vehicle_model"]) ;;
  drivers_map <-
    select t [name "vehicle_make"; name "vehicle_model"; name "vehicle_map"] ;;
  printSchema drivers_map ;;
  show drivers_map 5 false ;;
  t <- select drivers_map
         [name "vehicle_map"; getattr (col "vehicle_map") "make"] ;;
  show t 5 false ;;
  t <- select drivers_map [name "vehicle_map"; size (name "vehicle_map")] ;;
  show t 5 false ;;
  t <- select drivers_map [name "vehicle_map"; explode (name "vehicle_map")] ;;
  show t 5 false ;;
  t <- select drivers_map
         [name "vehicle_map"; posexplode (name "vehicle_map")] ;;
  show t 5 false ;;
  Ret tt.

(** [## Structs], lines 127-151. *)
Definition structs (drivers : DataFrame) : Prog unit :=
  t <- withColumn drivers "vehicle_struct"
         (struct [alias (col "vehicle_make") ["make"];
                  alias (col "vehicle_model") ["model"]]) ;;
  drivers_struct <-
    select t
      [name "vehicle_make"; name "vehicle_model"; name "vehicle_struct"] ;;
  printSchema drivers_struct ;;
  show drivers_struct 5 false ;;
  head drivers_struct 5 ;;
  t <- select drivers_struct
         [name "vehicle_struct"; getattr (col "vehicle_struct") "make"] ;;
  show t 5 false ;;
  t <- select drivers_struct
         [name "vehicle_struct"; to_json (name "vehicle_struct")] ;;
  show t 5 false ;;
  Ret tt.

(** The whole file: [## Setup] (lines 33-46), the three sections, and
    [## Cleanup] (line 181). *)
Definition script (env : Env) : Prog unit :=
  conn <- get_connection (CONNECTION_NAME env) ;;
  spark <- get_spark_session conn ;;
  rides <- read_csv spark (S3_ROOT env ++ "/duocar/raw/rides/") true true ;;
  drivers <- read_csv spark (S3_ROOT env ++ "/duocar/raw/drivers/") true true ;;
  riders <- read_csv spark (S3_ROOT env ++ "/duocar/raw/riders/") true true ;;
  arrays drivers ;;;
  maps drivers ;;;
  structs drivers ;;;
  stop spark ;;
  Ret tt.

(** The trace of a run, oldest event first, its outcome and final world. *)
Definition trace_of {World : Type} (handle : Handler World)
    (p : Prog unit) (w : World) : list Event :=
  rev (snd (fst (run handle p w []))).
Definition outcome_of {World : Type} (handle : Handler World)
    (p : Prog unit) (w : World) : Outcome Exn unit :=
  snd (run handle p w []).
Definition world_of {World : Type} (handle : Handler World)
    (p : Prog unit) (w : World) : World :=
  fst (fst (run handle p w [])).

(** *** Reading a trace *)

Definition succeeded (ev : Event) : bool :=
  match ev with
  | event _ (inr _) => true
  | event _ (inl _) => false
  end.

(** The exception an event ended with, if any. *)
Definition raised_by (ev : Event) : option Exn :=
  match ev with
  | event _ (inl e) => Some e
  | event _ (inr _) => None
  end.

Definition is_stop (ev : Event) : bool :=
  match ev with
  | event (stop _) _ => true
  | _ => false
  end.

(** Path and options of a [read_csv] event. *)
Definition read_request (ev : Event) : option (string * bool * bool) :=
  match ev with
  | event (read_csv _ path header inferSchema) _ =>
      Some (path, header, inferSchema)
  | _ => None
  end.

Fixpoint read_requests (tr : list Event) : list (string * bool * bool) :=
  match tr with
  | [] => []
  | ev :: tr =>
      match read_request ev with
      | Some r => r :: read_requests tr
      | None => read_requests tr
      end
  end.

(** Row count passed to [show] or [head]. *)
Definition rows_requested {X : Type} (c : Call X) : option Z :=
  match c with
  | show _ n _ => Some n
  | head _ n => Some n
  | _ => None
  end.

(** Calls that leave a durable artifact behind. *)
Definition persists {X : Type} (c : Call X) : bool :=
  match c with
  | write_csv _ _ | saveAsTable _ _ => true
  | _ => false
  end.

(** Calls that print to the console. *)
Definition prints {X : Type} (c : Call X) : bool :=
  match c with
  | printSchema _ | show _ _ _ => true
  | _ => false
  end.

(** Column expressions a call carries. *)
Definition columns_of {X : Type} (c : Call X) : list Column :=
  match c with
  | withColumn _ _ c => [c]
  | select _ cols => cols
  | _ => []
  end.

Definition event_columns (ev : Event) : list Column :=
  match ev with event c _ => columns_of c end.

Definition functions_used (tr : list Event) : list Fn :=
  flat_map functions_of (flat_map event_columns tr).

(** [withColumn] events: receiver, new column's name, expression, result. *)
Definition derivation (ev : Event)
  : option (DataFrame * string * Column * DataFrame) :=
  match ev with
  | event c r =>
      match c in Call X return Exn + X -> option _ with
      | withColumn df colName c =>
          fun r => match r with
                   | inr t => Some (df, colName, c, t)
                   | inl _ => None
                   end
      | _ => fun _ => None
      end r
  end.

Fixpoint derivations (tr : list Event)
  : list (DataFrame * string * Column * DataFrame) :=
  match tr with
  | [] => []
  | ev :: tr =>
      match derivation ev with
      | Some d => d :: derivations tr
      | None => derivations tr
      end
  end.

(** [select] events that succeeded: receiver, columns, result. *)
Definition selection (ev : Event)
  : option (DataFrame * list Column * DataFrame) :=
  match ev with
  | event c r =>
      match c in Call X return Exn + X -> option _ with
      | select df cols =>
          fun r => match r with
                   | inr t => Some (df, cols, t)
                   | inl _ => None
                   end
      | _ => fun _ => None
      end r
  end.

(** Frames obtained by a [withColumn] directly followed by a [select]. *)
Fixpoint derived (tr : list Event)
  : list ((DataFrame * string * Column * DataFrame)
          * (DataFrame * list Column * DataFrame)) :=
  match tr with
  | [] => []
  | ev :: tl =>
      match derivation ev, tl with
      | Some d, ev' :: _ =>
          match selection ev' with
          | Some s => (d, s) :: derived tl
          | None => derived tl
          end
      | _, _ => derived tl
      end
  end.

(** Built from [drivers]: the [withColumn] is applied to [drivers], the
    [select] to its result, and keeps the two vehicle columns and the new
    one. *)
Definition built_from (drivers : DataFrame)
    (d : (DataFrame * string * Column * DataFrame)
         * (DataFrame * list Column * DataFrame)) : Prop :=
  match d with
  | ((df, colName, _, t), (t', cols, _)) =>
      df = drivers /\ t' = t /\
      cols = [name "vehicle_make"; name "vehicle_model"; name colName]
  end.

Definition new_column
    (d : (DataFrame * string * Column * DataFrame)
         * (DataFrame * list Column * DataFrame)) : string * Column :=
  match d with
  | ((_, colName, c, _), _) => (colName, c)
  end.

(** Frames returned by the [read_csv] events, with their paths. *)
Definition loaded (ev : Event) : option (string * DataFrame) :=
  match ev with
  | event c r =>
      match c in Call X return Exn + X -> option _ with
      | read_csv _ path _ _ =>
          fun r => match r with
                   | inr d => Some (path, d)
                   | inl _ => None
                   end
      | _ => fun _ => None
      end r
  end.

Fixpoint loads (tr : list Event) : list (string * DataFrame) :=
  match tr with
  | [] => []
  | ev :: tr =>
      match loaded ev with
      | Some l => l :: loads tr
      | None => loads tr
      end
  end.

(** The events [new] added by a run that stops at the first exception:
    all succeeded, except the newest one when the run ended with an
    exception, which then is the one that call raised. *)
Definition abrupt {A : Type} (new : list Event) (o : Outcome Exn A) : Prop :=
  match o with
  | Done _ => forallb succeeded new = true
  | Raised e =>
      exists ev rest,
        new = ev :: rest /\ raised_by ev = Some e /\
        forallb succeeded rest = true
  end.

Definition five_rows {X : Type} (c : Call X) : Prop :=
  match rows_requested c with
  | Some n => n = 5%Z
  | None => True
  end.

Definition transient {X : Type} (c : Call X) : Prop := persists c = false.

Definition no_read {X : Type} (c : Call X) : Prop :=
  match c with
  | read_csv _ _ _ _ => False
  | _ => True
  end.

Definition within (allowed : list Fn) {X : Type} (c : Call X) : Prop :=
  forallb (fun f => existsb (Fn_eqb f) allowed)
          (flat_map functions_of (columns_of c)) = true.

(** *** Program shapes *)

(** No [try] anywhere in the program. *)
Fixpoint unguarded {A : Type} (p : Prog A) : Prop :=
  match p with
  | Ret _ => True
  | Vis _ k => forall x, unguarded (k x)
  | TryExcept _ _ _ => False
  | TryFinally _ _ _ => False
  end.

(** Every call the program can issue satisfies [P]. *)
Fixpoint all_calls (P : forall X : Type, Call X -> Prop) {A : Type}
    (p : Prog A) : Prop :=
  match p with
  | Ret _ => True
  | Vis c k => P _ c /\ forall x, all_calls P (k x)
  | TryExcept body handler k =>
      all_calls P body /\ (forall e, all_calls P (handler e)) /\
      forall b, all_calls P (k b)
  | TryFinally body cleanup k =>
      all_calls P body /\ all_calls P cleanup /\ forall b, all_calls P (k b)
  end.

Definition event_call (P : forall X : Type, Call X -> Prop) (ev : Event)
  : Prop :=
  match ev with event c _ => P _ c end.

(** *** The flat control flow *)

Definition step_of (ev : Event) : Step :=
  match ev with
  | event (get_connection _) _ => Connect
  | event (get_spark_session _) _ => Connect
  | event (read_csv _ _ _ _) _ => Load
  | event (withColumn _ _ c) _ => Derive (category_of c)
  | event (select _ _) _ => Project
  | event (printSchema _) _ => Schema
  | event (show _ _ _) _ => Sample
  | event (head _ _) _ => Sample
  | event (stop _) _ => Stop
  | event (write_csv _ _) _ => Persist
  | event (saveAsTable _ _) _ => Persist
  end.

(** The runs of the script depend on the configuration value that [set]
    replaces: some run changes when only that value does. *)
Definition depends_on {World : Type} (handle : Handler World)
    (set : Env -> string -> Env) : Prop :=
  exists env v w,
    trace_of handle (script (set env v)) w
    <> trace_of handle (script env) w.

(** *** A deterministic engine over stored datasets

    The engine is not part of the sources.  For statements that compare
    two runs on different data, it is taken to be any engine whose answers
    are functions of the call's arguments and of the datasets in storage,
    and whose state is the storage and the console. *)

Variable Dataset : Type.

Record Kernel : Type := {
  k_connect : string -> Exn + Conn;
  k_session : Conn -> Exn + Session;
  k_missing : string -> Exn;
  k_load : Dataset -> bool -> bool -> Exn + DataFrame;
  k_withColumn : DataFrame -> string -> Column -> Exn + DataFrame;
  k_select : DataFrame -> list Column -> Exn + DataFrame;
  k_schema : DataFrame -> Exn + string;
  k_show : DataFrame -> Z -> bool -> Exn + string;
  k_head : DataFrame -> Z -> Exn + list Row;
  k_dump : DataFrame -> Dataset
}.

Record Store : Type := {
  files : string -> option Dataset;
  tables : string -> option Dataset;
  console : list string
}.

Definition print (w : Store) (text : Exn + string) : Store * (Exn + unit) :=
  match text with
  | inl e => (w, inl e)
  | inr s =>
      ({| files := files w; tables := tables w;
          console := console w ++ [s] |}, inr tt)
  end.

Definition put (m : string -> option Dataset) (key : string) (d : Dataset)
  : string -> option Dataset :=
  fun k => if String.eqb k key then Some d else m k.

Definition dataset_handle (K : Kernel) : Handler Store :=
  fun X c w =>
    match c in Call X return Store * (Exn + X) with
    | get_connection connection_name => (w, k_connect K connection_name)
    | get_spark_session conn => (w, k_session K conn)
    | read_csv _ path header inferSchema =>
        match files w path with
        | None => (w, inl (k_missing K path))
        | Some d => (w, k_load K d header inferSchema)
        end
    | withColumn df colName c => (w, k_withColumn K df colName c)
    | select df cols => (w, k_select K df cols)
    | printSchema df => print w (k_schema K df)
    | show df n truncate => print w (k_show K df n truncate)
    | head df n => (w, k_head K df n)
    | stop _ => (w, inr tt)
    | write_csv df path =>
        ({| files := put (files w) path (k_dump K df); tables := tables w;
            console := console w |}, inr tt)
    | saveAsTable df table =>
        ({| files := files w; tables := put (tables w) table (k_dump K df);
            console := console w |}, inr tt)
    end.

(** A dataset that the engine can load with the script's options. *)
Definition readable (K : Kernel) (w : Store) (path : string) : bool :=
  match files w path with
  | Some d => match k_load K d true true with
              | inr _ => true
              | inl _ => false
              end
  | None => false
  end.

(** The event is a [read_csv] of one of [paths]. *)
Definition reads_from (paths : list string) (ev : Event) : bool :=
  match read_request ev with
  | Some (path, _, _) => existsb (String.eqb path) paths
  | None => false
  end.

End Engine.

Arguments get_connection {Conn Session DataFrame Row} connection_name.
Arguments get_spark_session {Conn Session DataFrame Row} conn.
Arguments read_csv {Conn Session DataFrame Row} spark path header inferSchema.
Arguments withColumn {Conn Session DataFrame Row} df colName c.
Arguments select {Conn Session DataFrame Row} df cols.
Arguments printSchema {Conn Session DataFrame Row} df.
Arguments show {Conn Session DataFrame Row} df n truncate.
Arguments head {Conn Session DataFrame Row} df n.
Arguments stop {Conn Session DataFrame Row} spark.
Arguments write_csv {Conn Session DataFrame Row} df path.
Arguments saveAsTable {Conn Session DataFrame Row} df table.
Arguments Ret {Conn Session DataFrame Row Exn A} a.
Arguments Vis {Conn Session DataFrame Row Exn A X} c k.
Arguments TryExcept {Conn Session DataFrame Row Exn A B} body handler k.
Arguments TryFinally {Conn Session DataFrame Row Exn A B} body cleanup k.
Arguments bind {Conn Session DataFrame Row Exn A B} p f.
Arguments event {Conn Session DataFrame Row Exn X} c r.
Arguments run {Conn Session DataFrame Row Exn World} handle {A} p w log.
Arguments trace_of {Conn Session DataFrame Row Exn World} handle p w.
Arguments outcome_of {Conn Session DataFrame Row Exn World} handle p w.
Arguments world_of {Conn Session DataFrame Row Exn World} handle p w.
Arguments arrays {Conn Session DataFrame Row Exn} drivers.
Arguments maps {Conn Session DataFrame Row Exn} drivers.
Arguments structs {Conn Session DataFrame Row Exn} drivers.
Arguments script {Conn Session DataFrame Row Exn} env.
Arguments succeeded {Conn Session DataFrame Row Exn} ev.
Arguments raised_by {Conn Session DataFrame Row Exn} ev.
Arguments is_stop {Conn Session DataFrame Row Exn} ev.
Arguments read_request {Conn Session DataFrame Row Exn} ev.
Arguments read_requests {Conn Session DataFrame Row Exn} tr.
Arguments rows_requested {Conn Session DataFrame Row X} c.
Arguments persists {Conn Session DataFrame Row X} c.
Arguments prints {Conn Session DataFrame Row X} c.
Arguments columns_of {Conn Session DataFrame Row X} c.
Arguments event_columns {Conn Session DataFrame Row Exn} ev.
Arguments functions_used {Conn Session DataFrame Row Exn} tr.
Arguments derivation {Conn Session DataFrame Row Exn} ev.
Arguments derivations {Conn Session DataFrame Row Exn} tr.
Arguments selection {Conn Session DataFrame Row Exn} ev.
Arguments derived {Conn Session DataFrame Row Exn} tr.
Arguments built_from {DataFrame} drivers d.
Arguments new_column {DataFrame} d.
Arguments loaded {Conn Session DataFrame Row Exn} ev.
Arguments loads {Conn Session DataFrame Row Exn} tr.
Arguments abrupt {Conn Session DataFrame Row Exn A} new o.
Arguments five_rows {Conn Session DataFrame Row X} c.
Arguments transient {Conn Session DataFrame Row X} c.
Arguments no_read {Conn Session DataFrame Row X} c.
Arguments within {Conn Session DataFrame Row} allowed {X} c.
Arguments depends_on {Conn Session DataFrame Row Exn World} handle set.
Arguments unguarded {Conn Session DataFrame Row Exn A} p.
Arguments all_calls {Conn Session DataFrame Row Exn} P {A} p.
Arguments event_call {Conn Session DataFrame Row Exn} P ev.
Arguments step_of {Conn Session DataFrame Row Exn} ev.
Arguments k_connect {Conn Session DataFrame Row Exn Dataset} k _.
Arguments k_session {Conn Session DataFrame Row Exn Dataset} k _.
Arguments k_missing {Conn Session DataFrame Row Exn Dataset} k _.
Arguments k_load {Conn Session DataFrame Row Exn Dataset} k _ _ _.
Arguments k_withColumn {Conn Session DataFrame Row Exn Dataset} k _ _ _.
Arguments k_select {Conn Session DataFrame Row Exn Dataset} k _ _.
Arguments k_schema {Conn Session DataFrame Row Exn Dataset} k _.
Arguments k_show {Conn Session DataFrame Row Exn Dataset} k _ _ _.
Arguments k_head {Conn Session DataFrame Row Exn Dataset} k _ _.
Arguments k_dump {Conn Session DataFrame Row Exn Dataset} k _.
Arguments print {Exn Dataset} w text.
Arguments put {Dataset} m key d.
Arguments files {Dataset} s.
Arguments tables {Dataset} s.
Arguments console {Dataset} s.
Arguments dataset_handle {Conn Session DataFrame Row Exn Dataset} K.
Arguments readable {Conn Session DataFrame Row Exn Dataset} K w path.
Arguments reads_from {Conn Session DataFrame Row Exn} paths ev.

(** ** A lazy engine over stored datasets

    Frames are query plans, as in the engine the script is written for: a
    [read_csv], [withColumn] or [select] that passes analysis returns a
    plan, and what a plan holds is worked out from storage each time it
    is displayed or written.  Overwriting a path therefore changes what
    every frame read from it holds. *)
Inductive Plan : Type :=
| Scan (path : string) (header inferSchema : bool)
| Extend (p : Plan) (colName : string) (c : Column)
| Projection (p : Plan) (cols : list Column).

Section Lazy.

Variables Conn Session Table Row Exn Dataset : Type.
Variable K : Kernel Conn Session Table Row Exn Dataset.

(** What a frame holds, given the stored files. *)
Fixpoint content (stored : string -> option Dataset) (p : Plan)
  : Exn + Table :=
  match p with
  | Scan path header inferSchema =>
      match stored path with
      | None => inl (k_missing K path)
      | Some d => k_load K d header inferSchema
      end
  | Extend p colName c =>
      match content stored p with
      | inl e => inl e
      | inr t => k_withColumn K t colName c
      end
  | Projection p cols =>
      match content stored p with
      | inl e => inl e
      | inr t => k_select K t cols
      end
  end.

(** Analysis of a new plan: it is returned when it can be worked out. *)
Definition analysed (w : Store Dataset) (p : Plan)
  : Store Dataset * (Exn + Plan) :=
  match content (files w) p with
  | inl e => (w, inl e)
  | inr _ => (w, inr p)
  end.

Definition lazy_handle : Handler Conn Session Plan Row Exn (Store Dataset) :=
  fun X c w =>
    match c in Call _ _ _ _ X return Store Dataset * (Exn + X) with
    | get_connection connection_name => (w, k_connect K connection_name)
    | get_spark_session conn => (w, k_session K conn)
    | read_csv _ path header inferSchema =>
        analysed w (Scan path header inferSchema)
    | withColumn df colName c => analysed w (Extend df colName c)
    | select df cols => analysed w (Projection df cols)
    | printSchema df =>
        print w (match content (files w) df with
                 | inl e => inl e
                 | inr t => k_schema K t
                 end)
    | show df n truncate =>
        print w (match content (files w) df with
                 | inl e => inl e
                 | inr t => k_show K t n truncate
                 end)
    | head df n =>
        (w, match content (files w) df with
            | inl e => inl e
            | inr t => k_head K t n
            end)
    | stop _ => (w, inr tt)
    | write_csv df path =>
        match content (files w) df with
        | inl e => (w, inl e)
        | inr t =>
            ({| files := put (files w) path (k_dump K t);
                tables := tables w; console := console w |}, inr tt)
        end
    | saveAsTable df table =>
        match content (files w) df with
        | inl e => (w, inl e)
        | inr t =>
            ({| files := files w;
                tables := put (tables w) table (k_dump K t);
                console := console w |}, inr tt)
        end
    end.

(** The frame a [withColumn] or [select] returns is a new one: its
    receiver with one more operation on top. *)
Definition new_frame (ev : Event Conn Session Plan Row Exn) : Prop :=
  match derivation ev with
  | Some (df, colName, c, t) => t = Extend df colName c
  | None => True
  end /\
  match selection ev with
  | Some (df, cols, t) => t = Projection df cols
  | None => True
  end.

(** A derived frame that is [drivers] with the section's [withColumn] and
    [select] on top, and nothing else. *)
Definition stacked_on (drivers : Plan)
    (d : (Plan * string * Column * Plan) * (Plan * list Column * Plan))
  : Prop :=
  match d with
  | ((_, colName, c, _), (_, cols, r)) =>
      r = Projection (Extend drivers colName c) cols
  end.

End Lazy.

Arguments content {Conn Session Table Row Exn Dataset} K stored p.
Arguments analysed {Conn Session Table Row Exn Dataset} K w p.
Arguments lazy_handle {Conn Session Table Row Exn Dataset} K.
Arguments new_frame {Conn Session Row Exn} ev.

(** ** A small engine to run the script on

    Frames are lists of column names, datasets are the column names of the
    stored file.  Used to exhibit complete and failing runs. *)
Module Fixture.

Definition label (c : Column) : string :=
  match c with
  | name s | col s => s
  | _ => "expr"
  end.

Definition kernel
  : Kernel string string (list string) (list string) string (list string) :=
  {| k_connect := fun n =>
       if String.eqb n "" then inl "no connection name" else inr n;
     k_session := fun c => inr c;
     k_missing := fun p => ("Path does not exist: " ++ p)%string;
     k_load := fun d _ _ =>
       match d with
       | [] => inl "empty dataset"
       | _ => inr d
       end;
     k_withColumn := fun df colName _ => inr (df ++ [colName]);
     k_select := fun _ cols => inr (map label cols);
     k_schema := fun df => inr (String.concat "," df);
     k_show := fun df _ _ => inr (String.concat "|" df);
     k_head := fun _ _ => inr [];
     k_dump := fun df => df |}.

Definition env : Env :=
  {| S3_ROOT := "s3a://bucket";
     S3_HOME := "s3a://bucket/home";
     CONNECTION_NAME := "default-aws" |}.

Definition drivers_file : list string :=
  ["id"; "first_name"; "last_name"; "vehicle_make"; "vehicle_model"].

(** All three datasets present. *)
Definition store : Store (list string) :=
  {| files := fun p =>
       if String.eqb p "s3a://bucket/duocar/raw/rides/"
       then Some ["id"; "driver_id"; "rider_id"]
       else if String.eqb p "s3a://bucket/duocar/raw/drivers/"
       then Some drivers_file
       else if String.eqb p "s3a://bucket/duocar/raw/riders/"
       then Some ["id"; "first_name"]
       else None;
     tables := fun _ => None;
     console := [] |}.

(** Same drivers, other rides and riders. *)
Definition store' : Store (list string) :=
  {| files := fun p =>
       if String.eqb p "s3a://bucket/duocar/raw/rides/"
       then Some ["id"; "distance"; "duration"; "cancelled"]
       else if String.eqb p "s3a://bucket/duocar/raw/drivers/"
       then Some drivers_file
       else if String.eqb p "s3a://bucket/duocar/raw/riders/"
       then Some ["id"; "birth_date"; "student"]
       else None;
     tables := fun _ => None;
     console := [] |}.

(** The drivers dataset is missing. *)
Definition store_without_drivers : Store (list string) :=
  {| files := fun p =>
       if String.eqb p "s3a://bucket/duocar/raw/rides/"
       then Some ["id"; "driver_id"; "rider_id"]
       else None;
     tables := fun _ => None;
     console := [] |}.

(** The rides dataset is there but cannot be loaded. *)
Definition store_with_unloadable_rides : Store (list string) :=
  {| files := fun p =>
       if String.eqb p "s3a://bucket/duocar/raw/rides/"
       then Some []
       else if String.eqb p "s3a://bucket/duocar/raw/drivers/"
       then Some drivers_file
       else if String.eqb p "s3a://bucket/duocar/raw/riders/"
       then Some ["id"; "first_name"]
       else None;
     tables := fun _ => None;
     console := [] |}.

Definition handle := dataset_handle kernel.

Definition lazy := lazy_handle kernel.

End Fixture.

(** ** Data flow and column discipline

    Readers of a trace that follow which session, which frame and which
    column names the calls of the script are given. *)

(** Column names an expression refers to. *)
Fixpoint referenced (c : Column) : list string :=
  let all := fix all (cs : list Column) : list string :=
    match cs with
    | [] => []
    | c :: cs => referenced c ++ all cs
    end in
  match c with
  | name s | col s => [s]
  | lit _ => []
  | array cs | create_map cs | struct cs | other _ cs => all cs
  | size c | sort_array c _ | array_contains c _ | explode c | posexplode c
  | to_json c | getitem c _ | getattr c _ | alias c _ => referenced c
  end.

(** The column an access is applied to, when it is a plain column. *)
Definition base_column (c : Column) : option string :=
  match c with
  | name s | col s => Some s
  | _ => None
  end.

(** Fields read with dot notation, each with the column it is read from. *)
Fixpoint accessed_fields (c : Column) : list (option string * string) :=
  let all := fix all (cs : list Column) : list (option string * string) :=
    match cs with
    | [] => []
    | c :: cs => accessed_fields c ++ all cs
    end in
  match c with
  | name _ | col _ | lit _ => []
  | array cs | create_map cs | struct cs | other _ cs => all cs
  | getattr c field => (base_column c, field) :: accessed_fields c
  | size c | sort_array c _ | array_contains c _ | explode c | posexplode c
  | to_json c | getitem c _ | alias c _ => accessed_fields c
  end.

(** Integer positions read with index notation, each with the column it is
    read from. *)
Fixpoint accessed_indices (c : Column) : list (option string * Z) :=
  let all := fix all (cs : list Column) : list (option string * Z) :=
    match cs with
    | [] => []
    | c :: cs => accessed_indices c ++ all cs
    end in
  match c with
  | name _ | col _ | lit _ => []
  | array cs | create_map cs | struct cs | other _ cs => all cs
  | getitem c (VInt i) => (base_column c, i) :: accessed_indices c
  | getitem c (VStr _) => accessed_indices c
  | size c | sort_array c _ | array_contains c _ | explode c | posexplode c
  | to_json c | getattr c _ | alias c _ => accessed_indices c
  end.

(** Arguments of [create_map]: a string literal key, then a column, and so
    on. *)
Fixpoint well_paired (cs : list Column) : bool :=
  match cs with
  | [] => true
  | lit (VStr _) :: (name _ | col _) :: rest => well_paired rest
  | _ => false
  end.

Fixpoint map_keys (cs : list Column) : list string :=
  match cs with
  | lit (VStr k) :: _ :: rest => k :: map_keys rest
  | _ => []
  end.

(** Every [create_map] inside the expression takes key/value pairs. *)
Fixpoint maps_paired (c : Column) : bool :=
  let all := fix all (cs : list Column) : bool :=
    match cs with
    | [] => true
    | c :: cs => maps_paired c && all cs
    end in
  match c with
  | name _ | col _ | lit _ => true
  | create_map cs => well_paired cs && all cs
  | array cs | struct cs | other _ cs => all cs
  | size c | sort_array c _ | array_contains c _ | explode c | posexplode c
  | to_json c | getitem c _ | getattr c _ | alias c _ => maps_paired c
  end.

(** The name a member of a [struct] goes by. *)
Definition field_name (c : Column) : list string :=
  match c with
  | alias _ [n] => [n]
  | name s | col s => [s]
  | _ => []
  end.

(** Keys of a map, fields of a struct. *)
Definition defined_fields (c : Column) : list string :=
  match c with
  | create_map cs => map_keys cs
  | struct cs => flat_map field_name cs
  | _ => []
  end.

(** Number of elements of an array built by [array]. *)
Definition array_length (c : Column) : option nat :=
  match c with
  | array cs => Some (length cs)
  | _ => None
  end.

Definition subset (l l' : list string) : bool :=
  forallb (fun s => existsb (String.eqb s) l') l.

(** The two columns of the drivers dataset the sections are built on. *)
Definition vehicle_columns : list string := ["vehicle_make"; "vehicle_model"].

Section Dataflow.

Variables Conn Session DataFrame Row Exn : Type.

Local Notation Events := (list (Event Conn Session DataFrame Row Exn)).

Definition untruncated {X : Type} (c : Call Conn Session DataFrame Row X)
  : Prop :=
  match c with
  | show _ _ truncate => truncate = false
  | _ => True
  end.

Definition paired {X : Type} (c : Call Conn Session DataFrame Row X) : Prop :=
  forallb maps_paired (columns_of c) = true.

(** Connection and session a call is given. *)
Definition connection_used {X : Type} (c : Call Conn Session DataFrame Row X)
  : option Conn :=
  match c with
  | get_spark_session conn => Some conn
  | _ => None
  end.

Definition session_used {X : Type} (c : Call Conn Session DataFrame Row X)
  : option Session :=
  match c with
  | read_csv spark _ _ _ => Some spark
  | stop spark => Some spark
  | _ => None
  end.

(** Connection and session an event hands out. *)
Definition connection_opened (ev : Event Conn Session DataFrame Row Exn)
  : option Conn :=
  match ev with
  | event c r =>
      match c in Call _ _ _ _ X return Exn + X -> option Conn with
      | get_connection _ =>
          fun r => match r with
                   | inr conn => Some conn
                   | inl _ => None
                   end
      | _ => fun _ => None
      end r
  end.

Definition session_opened (ev : Event Conn Session DataFrame Row Exn)
  : option Session :=
  match ev with
  | event c r =>
      match c in Call _ _ _ _ X return Exn + X -> option Session with
      | get_spark_session _ =>
          fun r => match r with
                   | inr spark => Some spark
                   | inl _ => None
                   end
      | _ => fun _ => None
      end r
  end.

(** Each call that takes a connection or a session is given the one most
    recently handed out. *)
Fixpoint on_session (conn : option Conn) (spark : option Session)
    (tr : Events) : Prop :=
  match tr with
  | [] => True
  | ev :: tr =>
      match ev with
      | event c _ =>
          match connection_used c with
          | Some x => conn = Some x
          | None => True
          end /\
          match session_used c with
          | Some s => spark = Some s
          | None => True
          end
      end /\
      on_session
        (match connection_opened ev with Some x => Some x | None => conn end)
        (match session_opened ev with Some s => Some s | None => spark end)
        tr
  end.

(** Frame a display call is applied to, frame a [select] is applied to. *)
Definition frame_shown {X : Type} (c : Call Conn Session DataFrame Row X)
  : option DataFrame :=
  match c with
  | printSchema df => Some df
  | show df _ _ => Some df
  | head df _ => Some df
  | _ => None
  end.

Definition frame_projected {X : Type} (c : Call Conn Session DataFrame Row X)
  : option DataFrame :=
  match c with
  | select df _ => Some df
  | _ => None
  end.

(** Each display is applied to the result of the latest [select]. *)
Fixpoint displays_latest (latest : option DataFrame) (tr : Events) : Prop :=
  match tr with
  | [] => True
  | ev :: tr =>
      match ev with
      | event c _ =>
          match frame_shown c with
          | Some df => latest = Some df
          | None => True
          end
      end /\
      displays_latest
        (match selection ev with Some (_, _, r) => Some r | None => latest end)
        tr
  end.

(** Each [select] is applied to the result of the [withColumn] just before
    it ([extended]), or else to the frame that first [select] gave
    ([base]). *)
Fixpoint projects_derived (extended base : option DataFrame) (tr : Events)
  : Prop :=
  match tr with
  | [] => True
  | ev :: tr =>
      match ev with
      | event c _ =>
          match frame_projected c with
          | Some df =>
              match extended with
              | Some t => df = t
              | None => base = Some df
              end /\
              projects_derived None
                (match extended, selection ev with
                 | Some _, Some (_, _, r) => Some r
                 | _, _ => base
                 end) tr
          | None =>
              match derivation ev with
              | Some (_, _, _, t) => projects_derived (Some t) None tr
              | None => projects_derived extended base tr
              end
          end
      end
  end.

(** Column names resolve: a [withColumn] refers to the vehicle columns
    only, a [select] to them and to the column the latest [withColumn]
    added. *)
Fixpoint names_resolve (added : list string) (tr : Events) : bool :=
  match tr with
  | [] => true
  | event c _ :: tr =>
      match c with
      | withColumn _ colName e =>
          subset (referenced e) vehicle_columns && names_resolve [colName] tr
      | select _ cols =>
          subset (flat_map referenced cols) (vehicle_columns ++ added)
          && names_resolve added tr
      | _ => names_resolve added tr
      end
  end.

(** Dot notation is applied to the column the latest [withColumn] added
    and reads a key or field that its [create_map] or [struct] defined. *)
Definition field_defined (latest : option (string * Column))
    (access : option string * string) : bool :=
  match latest, access with
  | Some (colName, e), (Some v, field) =>
      String.eqb v colName && existsb (String.eqb field) (defined_fields e)
  | _, _ => false
  end.

Fixpoint fields_defined (latest : option (string * Column)) (tr : Events)
  : bool :=
  match tr with
  | [] => true
  | event c _ :: tr =>
      match c with
      | withColumn _ colName e =>
          match accessed_fields e with
          | [] => fields_defined (Some (colName, e)) tr
          | _ => false
          end
      | select _ cols =>
          forallb (field_defined latest) (flat_map accessed_fields cols)
          && fields_defined latest tr
      | _ => fields_defined latest tr
      end
  end.

(** Index notation is applied to the column the latest [withColumn] added
    and reads a position inside the array that its [array] built. *)
Definition index_in_bounds (latest : option (string * Column))
    (access : option string * Z) : bool :=
  match latest, access with
  | Some (colName, e), (Some v, i) =>
      String.eqb v colName &&
      match array_length e with
      | Some n => (0 <=? i)%Z && (i <? Z.of_nat n)%Z
      | None => false
      end
  | _, _ => false
  end.

Fixpoint indices_in_bounds (latest : option (string * Column)) (tr : Events)
  : bool :=
  match tr with
  | [] => true
  | event c _ :: tr =>
      match c with
      | withColumn _ colName e =>
          match accessed_indices e with
          | [] => indices_in_bounds (Some (colName, e)) tr
          | _ => false
          end
      | select _ cols =>
          forallb (index_in_bounds latest) (flat_map accessed_indices cols)
          && indices_in_bounds latest tr
      | _ => indices_in_bounds latest tr
      end
  end.

End Dataflow.

Arguments untruncated {Conn Session DataFrame Row X} c.
Arguments paired {Conn Session DataFrame Row X} c.
Arguments connection_used {Conn Session DataFrame Row X} c.
Arguments session_used {Conn Session DataFrame Row X} c.
Arguments connection_opened {Conn Session DataFrame Row Exn} ev.
Arguments session_opened {Conn Session DataFrame Row Exn} ev.
Arguments on_session {Conn Session DataFrame Row Exn} conn spark tr.
Arguments frame_shown {Conn Session DataFrame Row X} c.
Arguments frame_projected {Conn Session DataFrame Row X} c.
Arguments displays_latest {Conn Session DataFrame Row Exn} latest tr.
Arguments projects_derived {Conn Session DataFrame Row Exn} extended base tr.
Arguments names_resolve {Conn Session DataFrame Row Exn} added tr.
Arguments fields_defined {Conn Session DataFrame Row Exn} latest tr.
Arguments indices_in_bounds {Conn Session DataFrame Row Exn} latest tr.

(** * Properties *)

Section Runs.

Variables Conn Session DataFrame Row Exn World : Type.
Variable handle : Handler Conn Session DataFrame Row Exn World.

Local Notation Program := (Prog Conn Session DataFrame Row Exn).
Local Notation Events := (list (Event Conn Session DataFrame Row Exn)).
Local Notation CallP := (forall X, Call Conn Session DataFrame Row X -> Prop).

(** ** Programs in general *)

(** A property of calls that holds of every call of the program holds of
    every event of its runs. *)
Lemma all_calls_run (P : CallP) (A : Type) (p : Program A) :
  all_calls P p ->
  forall w log w' log' o,
    Forall (event_call P) log ->
    run handle p w log = (w', log', o) ->
    Forall (event_call P) log'.
Proof.
  induction p as [A a | A X c k IH | A B body IHb handler IHh k IHk
                 | A B body IHb cleanup IHc k IHk];
    cbn [all_calls run]; intros Hp w log w' log' o Hlog Hrun.
  - inversion Hrun; subst; assumption.
  - destruct Hp as [Hc Hk].
    destruct (handle X c w) as [w1 [e | x]].
    + inversion Hrun; subst. constructor; assumption.
    + eapply IH; [apply Hk | | exact Hrun]. constructor; assumption.
  - destruct Hp as (Hb & Hh & Hk).
    destruct (run handle body w log) as [[w1 log1] [b | e]] eqn:Eb.
    + eapply IHk; [apply Hk | | exact Hrun]. eapply IHb; eauto.
    + destruct (run handle (handler e) w1 log1) as [[w2 log2] [b | e']] eqn:Eh.
      * eapply IHk; [apply Hk | | exact Hrun].
        eapply IHh; [apply Hh | | exact Eh]. eapply IHb; eauto.
      * inversion Hrun; subst.
        eapply IHh; [apply Hh | | exact Eh]. eapply IHb; eauto.
  - destruct Hp as (Hb & Hc & Hk).
    destruct (run handle body w log) as [[w1 log1] [b | e]] eqn:Eb;
      destruct (run handle cleanup w1 log1) as [[w2 log2] [u | e']] eqn:Ec.
    + eapply IHk; [apply Hk | | exact Hrun].
      eapply IHc; [exact Hc | | exact Ec]. eapply IHb; eauto.
    + inversion Hrun; subst.
      eapply IHc; [exact Hc | | exact Ec]. eapply IHb; eauto.
    + inversion Hrun; subst.
      eapply IHc; [exact Hc | | exact Ec]. eapply IHb; eauto.
    + inversion Hrun; subst.
      eapply IHc; [exact Hc | | exact Ec]. eapply IHb; eauto.
Qed.

Lemma all_calls_trace (P : CallP) (p : Program unit) (w : World) :
  all_calls P p -> Forall (event_call P) (trace_of handle p w).
Proof.
  intros Hp. unfold trace_of.
  destruct (run handle p w []) as [[w' log'] o] eqn:E. cbn.
  apply Forall_rev. eapply all_calls_run; eauto.
Qed.

(** A program without [try] stops at the first call that raises. *)
Lemma unguarded_run (A : Type) (p : Program A) :
  unguarded p ->
  forall w log w' log' o,
    run handle p w log = (w', log', o) ->
    exists new, log' = new ++ log /\ abrupt new o.
Proof.
  induction p as [A a | A X c k IH | A B body IHb handler IHh k IHk
                 | A B body IHb cleanup IHc k IHk];
    cbn [unguarded run]; intros Hp w log w' log' o Hrun;
    try contradiction.
  - inversion Hrun; subst. exists []. split; reflexivity.
  - destruct (handle X c w) as [w1 [e | x]].
    + inversion Hrun; subst. exists [event c (inl e)].
      split; [reflexivity |]. cbn. eauto.
    + destruct (IH x (Hp x) _ _ _ _ _ Hrun) as (new & -> & Hnew).
      exists (new ++ [event c (inr x)]). split.
      * rewrite <- app_assoc. reflexivity.
      * destruct o as [a | e]; cbn in *.
        -- rewrite forallb_app, Hnew. reflexivity.
        -- destruct Hnew as (ev & rest & -> & Hev & Hrest).
           exists ev, (rest ++ [event c (inr x)]). repeat split; auto.
           rewrite forallb_app, Hrest. reflexivity.
Qed.

(** A run only adds events to the log. *)
Lemma run_extends (A : Type) (p : Program A) :
  forall w log w' log' o,
    run handle p w log = (w', log', o) -> exists new, log' = new ++ log.
Proof.
  induction p as [A a | A X c k IH | A B body IHb handler IHh k IHk
                 | A B body IHb cleanup IHc k IHk];
    cbn [run]; intros w log w' log' o Hrun.
  - inversion Hrun; subst. exists []. reflexivity.
  - destruct (handle X c w) as [w1 [e | x]].
    + inversion Hrun; subst. exists [event c (inl e)]. reflexivity.
    + destruct (IH _ _ _ _ _ _ Hrun) as (new & ->).
      exists (new ++ [event c (inr x)]). rewrite <- app_assoc. reflexivity.
  - destruct (run handle body w log) as [[w1 log1] [b | e]] eqn:Eb;
      destruct (IHb _ _ _ _ _ Eb) as (n1 & ->).
    + destruct (IHk _ _ _ _ _ _ Hrun) as (n2 & ->).
      exists (n2 ++ n1). rewrite app_assoc. reflexivity.
    + destruct (run handle (handler e) w1 _) as [[w2 log2] [b | e']] eqn:Eh;
        destruct (IHh _ _ _ _ _ _ Eh) as (n2 & ->).
      * destruct (IHk _ _ _ _ _ _ Hrun) as (n3 & ->).
        exists (n3 ++ n2 ++ n1). rewrite !app_assoc. reflexivity.
      * inversion Hrun; subst. exists (n2 ++ n1).
        rewrite app_assoc. reflexivity.
  - destruct (run handle body w log) as [[w1 log1] [b | e]] eqn:Eb;
      destruct (IHb _ _ _ _ _ Eb) as (n1 & ->);
      destruct (run handle cleanup w1 _) as [[w2 log2] [u | e']] eqn:Ec;
      destruct (IHc _ _ _ _ _ Ec) as (n2 & ->).
    + destruct (IHk _ _ _ _ _ _ Hrun) as (n3 & ->).
      exists (n3 ++ n2 ++ n1). rewrite !app_assoc. reflexivity.
    + inversion Hrun; subst. exists (n2 ++ n1).
      rewrite app_assoc. reflexivity.
    + inversion Hrun; subst. exists (n2 ++ n1).
      rewrite app_assoc. reflexivity.
    + inversion Hrun; subst. exists (n2 ++ n1).
      rewrite app_assoc. reflexivity.
Qed.

Lemma forallb_rev (T : Type) (f : T -> bool) (l : list T) :
  forallb f (rev l) = forallb f l.
Proof.
  induction l as [| x l IH]; cbn; [reflexivity |].
  rewrite forallb_app, IH. cbn. rewrite andb_true_r. apply andb_comm.
Qed.

Lemma run_Vis (A X : Type) (c : Call Conn Session DataFrame Row X)
    (k : X -> Program A) (w : World) (log : Events) :
  run handle (Vis c k) w log =
  match handle X c w with
  | (w', inl e) => (w', event c (inl e) :: log, Raised e)
  | (w', inr x) => run handle (k x) w' (event c (inr x) :: log)
  end.
Proof. reflexivity. Qed.

End Runs.

Ltac each_call :=
  cbv beta iota delta [script arrays maps structs bind all_calls unguarded];
  repeat first [split | intro]; try exact I.

(** Runs the script call by call on [handle]; one goal for each call that
    raises and one for the complete run. *)
Ltac exec_all handle :=
  lazymatch goal with
  | |- context [run handle (Vis _ _) _ _] =>
      rewrite run_Vis;
      lazymatch goal with
      | |- context [handle ?X ?c ?w] =>
          let w' := fresh "w" in
          let e := fresh "e" in
          let x := fresh "x" in
          destruct (handle X c w) as [w' [e | x]];
          cbv beta iota; [ | exec_all handle ]
      end
  | _ => idtac
  end.

Ltac exec_script handle :=
  unfold trace_of, outcome_of, world_of;
  lazymatch goal with
  | |- context [run handle (script ?env) ?w []] =>
      pattern (run handle (script env) w []);
      lazymatch goal with
      | |- ?P _ =>
          let Q := fresh "Q" in
          set (Q := P);
          cbv beta iota delta [script arrays maps structs bind];
          exec_all handle; subst Q; cbv beta; cbn [run fst snd]
      end
  end.

(** ** The script on any engine *)

Section Script.

Variables Conn Session DataFrame Row Exn World : Type.
Variable handle : Handler Conn Session DataFrame Row Exn World.

Local Notation Program := (Prog Conn Session DataFrame Row Exn).

(** The script has no [try]. *)
Lemma script_unguarded (env : Env) : unguarded (script env : Program unit).
Proof.
  each_call.
Qed.

(** What a run of the script looks like, whatever the engine answers:
    its steps and its read requests are initial parts of the script's,
    and a complete run has all of them, uses all fourteen column
    functions and derives the three columns. *)
Lemma script_run_facts (env : Env) (w : World) :
  let tr := trace_of handle (script env) w in
  map step_of tr = firstn (length tr) script_steps /\
  read_requests tr
  = firstn (length (read_requests tr)) (script_reads env) /\
  match outcome_of handle (script env) w with
  | Done _ =>
      map step_of tr = script_steps /\
      read_requests tr = script_reads env /\
      forallb (fun f => existsb (Fn_eqb f) (functions_used tr))
              (listed_functions ++ auxiliary_functions) = true /\
      map new_column (derived tr) = script_columns
  | Raised _ => True
  end.
Proof.
  cbv zeta. exec_script handle; repeat split; reflexivity.
Qed.

Lemma script_complete_length (env : Env) (w : World) (u : unit) :
  outcome_of handle (script env) w = Done u ->
  length (trace_of handle (script env) w) = 45.
Proof.
  intros Hu. destruct (script_run_facts env w) as (_ & _ & H).
  rewrite Hu in H. destruct H as (H & _).
  rewrite <- (length_map step_of), H. reflexivity.
Qed.

Lemma Forall_firstn_of (T : Type) (P : T -> Prop) (n : nat) (l : list T) :
  Forall P l -> Forall P (firstn n l).
Proof.
  intros H. revert n. induction H as [| x l Hx Hl IH]; intros [| n]; cbn;
    constructor; auto.
Qed.

Lemma Fn_eqb_eq (a b : Fn) : Fn_eqb a b = true -> a = b.
Proof.
  destruct a, b; cbn; intros H; try reflexivity; try discriminate H.
  apply String.eqb_eq in H. subst. reflexivity.
Qed.

Lemma covered_incl (l l' : list Fn) :
  forallb (fun f => existsb (Fn_eqb f) l') l = true -> incl l l'.
Proof.
  intros H f Hf. rewrite forallb_forall in H. specialize (H f Hf).
  apply existsb_exists in H. destruct H as (g & Hg & E).
  apply Fn_eqb_eq in E. subst g. exact Hg.
Qed.

(** C1. Every run of the script goes through the flat flow connect, load
    three datasets, then for array, map and struct in this order derive
    a column, print the schema and display samples, then stop: the steps
    of a run are an initial part of that flow, and all of it when the run
    completes. *)
Theorem script_control_flow (env : Env) (w : World) :
  (exists rest,
      flat_flow (map step_of (trace_of handle (script env) w) ++ rest)
      = true) /\
  (forall u, outcome_of handle (script env) w = Done u ->
      flat_flow (map step_of (trace_of handle (script env) w)) = true).
Proof.
  destruct (script_run_facts env w) as (Hpre & _ & Hall). split.
  - exists (skipn (length (trace_of handle (script env) w)) script_steps).
    rewrite Hpre, firstn_skipn. reflexivity.
  - intros u Hu. rewrite Hu in Hall. destruct Hall as (Hall & _).
    rewrite Hall. reflexivity.
Qed.

(** C2. The only reads are [read_csv] calls with [header=True] and
    [inferSchema=True] on a path made of [S3_ROOT] and a suffix; a run
    issues at most three of them, and a complete run exactly the three
    for rides, drivers and riders. *)
Theorem script_reads_three_csv (env : Env) (w : World) :
  Forall (fun r => exists suffix,
              r = ((S3_ROOT env ++ suffix)%string, true, true))
         (read_requests (trace_of handle (script env) w)) /\
  length (read_requests (trace_of handle (script env) w)) <= 3 /\
  (forall u, outcome_of handle (script env) w = Done u ->
      read_requests (trace_of handle (script env) w) = script_reads env).
Proof.
  destruct (script_run_facts env w) as (_ & Hpre & Hall).
  split; [| split].
  - rewrite Hpre. apply Forall_firstn_of.
    unfold script_reads. repeat constructor; eexists; reflexivity.
  - rewrite Hpre. rewrite length_firstn. cbn [script_reads length]. lia.
  - intros u Hu. rewrite Hu in Hall. apply Hall.
Qed.

(** C3. Every [show] and every [head] of a run asks for 5 rows. *)
Theorem samples_request_five_rows (env : Env) (w : World) :
  Forall (event_call (fun X c => five_rows c))
         (trace_of handle (script env) w).
Proof.
  apply all_calls_trace. each_call; reflexivity.
Qed.

(** C4. The script has no [try]; a run either completes with all 45
    calls answered, or ends at the first call that raises, with that
    call's exception as its outcome and nothing issued after it. *)
Theorem script_has_no_error_handling (env : Env) (w : World) :
  unguarded (script env : Program unit) /\
  match outcome_of handle (script env) w with
  | Done _ =>
      forallb succeeded (trace_of handle (script env) w) = true /\
      length (trace_of handle (script env) w) = 45
  | Raised e =>
      exists before ev,
        trace_of handle (script env) w = before ++ [ev] /\
        raised_by ev = Some e /\
        forallb succeeded before = true
  end.
Proof.
  split; [apply script_unguarded |].
  pose proof (script_complete_length env w) as Hlen.
  unfold trace_of, outcome_of in *.
  destruct (run handle (script env) w []) as [[w' log] o] eqn:E.
  pose proof E as E'. eapply unguarded_run in E'; [| apply script_unguarded].
  destruct E' as (new & -> & Hnew).
  rewrite app_nil_r in *. cbn [fst snd] in *.
  destruct o as [u | e]; cbn [abrupt] in Hnew.
  - split; [rewrite forallb_rev; exact Hnew | eapply Hlen; reflexivity].
  - destruct Hnew as (ev & rest & -> & Hev & Hrest).
    exists (rev rest), ev. cbn [rev]. repeat split; auto.
    rewrite forallb_rev. exact Hrest.
Qed.

(** C5. The session is acquired by the first two calls and stopped by
    the last one, and only there: a complete run ends with [stop] on the
    session it acquired, and a run in which a call raises ends at that
    call without any [stop] before it.  No [try] guards the [stop]. *)
Theorem session_stopped_only_on_success (env : Env) (w : World) :
  unguarded (script env : Program unit) /\
  match outcome_of handle (script env) w with
  | Done _ =>
      exists conn spark u,
        nth_error (trace_of handle (script env) w) 0
        = Some (event (get_connection (CONNECTION_NAME env)) (inr conn)) /\
        nth_error (trace_of handle (script env) w) 1
        = Some (event (get_spark_session conn) (inr spark)) /\
        nth_error (trace_of handle (script env) w) 44
        = Some (event (stop spark) (inr u)) /\
        length (trace_of handle (script env) w) = 45 /\
        existsb is_stop (firstn 44 (trace_of handle (script env) w)) = false
  | Raised e =>
      exists before ev,
        trace_of handle (script env) w = before ++ [ev] /\
        raised_by ev = Some e /\
        existsb is_stop before = false
  end.
Proof.
  split; [apply script_unguarded |].
  exec_script handle;
    lazymatch goal with
    | |- exists before ev, rev (?e :: ?rest) = _ /\ _ =>
        exists (rev rest), e; repeat split; reflexivity
    | |- _ => do 3 eexists; repeat split; reflexivity
    end.
Qed.

(** C6, as amended. Every function or method a column expression of a
    run is built with is one of the nine listed primitives or one of
    [col], [lit], index access, attribute access and [alias]; a complete
    run uses each of the nine, and each of these five. *)
Theorem script_column_functions (env : Env) (w : World) :
  incl (functions_used (trace_of handle (script env) w))
       (listed_functions ++ auxiliary_functions) /\
  (forall u, outcome_of handle (script env) w = Done u ->
      incl listed_functions
           (functions_used (trace_of handle (script env) w)) /\
      incl auxiliary_functions
           (functions_used (trace_of handle (script env) w))).
Proof.
  split.
  - assert (H : Forall
                  (event_call
                     (fun X c =>
                        within (listed_functions ++ auxiliary_functions) c))
                  (trace_of handle (script env) w)).
    { apply all_calls_trace. each_call; reflexivity. }
    rewrite Forall_forall in H.
    intros f Hf. unfold functions_used in Hf.
    apply in_flat_map in Hf. destruct Hf as (c & Hc & Hf).
    apply in_flat_map in Hc. destruct Hc as (ev & Hev & Hc).
    specialize (H ev Hev). destruct ev as [X call r].
    cbn [event_call event_columns] in H, Hc. unfold within in H.
    apply covered_incl in H. apply H.
    apply in_flat_map. exists c. split; assumption.
  - intros u Hu. destruct (script_run_facts env w) as (_ & _ & H).
    rewrite Hu in H. destruct H as (_ & _ & H & _).
    apply covered_incl in H. split; intros f Hf; apply H, in_or_app; auto.
Qed.

(** C8, as amended. [CONNECTION_NAME] is the argument of the first call
    and [S3_ROOT] the root of every path read, both in the setup part;
    [S3_HOME] is imported but no run depends on it. *)
Theorem configuration_consumed_at_startup (env : Env) (w : World) :
  (forall v, run handle (script (with_S3_HOME env v)) w []
             = run handle (script env) w []) /\
  (exists r, nth_error (trace_of handle (script env) w) 0
             = Some (event (get_connection (CONNECTION_NAME env)) r)) /\
  (exists n, read_requests (trace_of handle (script env) w)
             = firstn n (script_reads env)) /\
  (forall u, outcome_of handle (script env) w = Done u ->
      read_requests (trace_of handle (script env) w) = script_reads env).
Proof.
  destruct (script_run_facts env w) as (_ & Hpre & Hall).
  split; [| split; [| split]].
  - intros v. reflexivity.
  - unfold trace_of.
    cbv beta iota delta [script]. rewrite run_Vis.
    destruct (handle Conn (get_connection (CONNECTION_NAME env)) w)
      as [w1 [e | conn]].
    + eexists. reflexivity.
    + destruct (run handle _ w1 _) as [[w' log] o] eqn:E.
      apply run_extends in E. destruct E as (new & ->).
      cbn [fst snd]. rewrite rev_app_distr. eexists. reflexivity.
  - eexists. exact Hpre.
  - intros u Hu. rewrite Hu in Hall. apply Hall.
Qed.

(** In every run each [withColumn] is applied to the frame the drivers
    [read_csv] returned and the following [select] to its result, keeping
    the two vehicle columns and the new one. *)
Lemma script_derivations (env : Env) (w : World) :
  match nth_error (loads (trace_of handle (script env) w)) 1 with
  | Some (path, drivers) =>
      path = (S3_ROOT env ++ "/duocar/raw/drivers/")%string /\
      Forall (built_from drivers)
             (derived (trace_of handle (script env) w))
  | None => derived (trace_of handle (script env) w) = []
  end /\
  (forall u, outcome_of handle (script env) w = Done u ->
      map new_column (derived (trace_of handle (script env) w))
      = script_columns).
Proof.
  split.
  - exec_script handle; cbn; repeat constructor.
  - intros u Hu. destruct (script_run_facts env w) as (_ & _ & H).
    rewrite Hu in H. apply H.
Qed.

End Script.

(** ** Runs on the dataset engine *)

Section Datasets.

Variables Conn Session DataFrame Row Exn Dataset : Type.
Variable K : Kernel Conn Session DataFrame Row Exn Dataset.

Local Notation Program := (Prog Conn Session DataFrame Row Exn).
Local Notation h := (dataset_handle K).

(** Calls other than the writers leave the stored files and tables as
    they are. *)
Lemma dataset_run_frame (A : Type) (p : Program A) :
  all_calls (fun X c => transient c) p ->
  forall w log w' log' o,
    run h p w log = (w', log', o) ->
    files w' = files w /\ tables w' = tables w.
Proof.
  induction p as [A a | A X c k IH | A B body IHb handler IHh k IHk
                 | A B body IHb cleanup IHc k IHk];
    cbn [all_calls run]; intros Hp w log w' log' o Hrun.
  - inversion Hrun; subst. split; reflexivity.
  - destruct Hp as [Hc Hk].
    assert (Hw : files (fst (h X c w)) = files w /\
                 tables (fst (h X c w)) = tables w).
    { destruct c; try discriminate Hc; cbn [dataset_handle fst];
        try (split; reflexivity).
      - destruct (files w path); split; reflexivity.
      - unfold print. destruct (k_schema K df); split; reflexivity.
      - unfold print. destruct (k_show K df n truncate); split; reflexivity. }
    destruct (h X c w) as [w1 [e | x]]; cbn [fst] in Hw.
    + inversion Hrun; subst. exact Hw.
    + destruct (IH x (Hk x) _ _ _ _ _ Hrun) as [Hf Ht].
      destruct Hw as [Hf1 Ht1]. split; congruence.
  - destruct Hp as (Hb & Hh & Hk).
    destruct (run h body w log) as [[w1 log1] [b | e]] eqn:Eb;
      destruct (IHb Hb _ _ _ _ _ Eb) as [Hf1 Ht1].
    + destruct (IHk b (Hk b) _ _ _ _ _ Hrun). split; congruence.
    + destruct (run h (handler e) w1 log1) as [[w2 log2] [b | e']] eqn:Eh;
        destruct (IHh e (Hh e) _ _ _ _ _ Eh) as [Hf2 Ht2].
      * destruct (IHk b (Hk b) _ _ _ _ _ Hrun). split; congruence.
      * inversion Hrun; subst. split; congruence.
  - destruct Hp as (Hb & Hc & Hk).
    destruct (run h body w log) as [[w1 log1] [b | e]] eqn:Eb;
      destruct (IHb Hb _ _ _ _ _ Eb) as [Hf1 Ht1];
      destruct (run h cleanup w1 log1) as [[w2 log2] [u | e']] eqn:Ec;
      destruct (IHc Hc _ _ _ _ _ Ec) as [Hf2 Ht2].
    + destruct (IHk b (Hk b) _ _ _ _ _ Hrun). split; congruence.
    + inversion Hrun; subst. split; congruence.
    + inversion Hrun; subst. split; congruence.
    + inversion Hrun; subst. split; congruence.
Qed.

(** A program without [try] that reads nothing adds the same events and
    console lines, and ends the same way, whatever is in storage. *)
Lemma dataset_run_console (A : Type) (p : Program A) :
  unguarded p ->
  all_calls (fun X c => no_read c) p ->
  forall w1 w2 log1 log2,
    console w1 = console w2 ->
    exists new o w1' w2',
      run h p w1 log1 = (w1', new ++ log1, o) /\
      run h p w2 log2 = (w2', new ++ log2, o) /\
      console w1' = console w2'.
Proof.
  induction p as [A a | A X c k IH | A B body IHb handler IHh k IHk
                 | A B body IHb cleanup IHc k IHk];
    cbn [unguarded all_calls run]; intros Hg Hp w1 w2 log1 log2 Hcon;
    try contradiction.
  - exists [], (Done a), w1, w2. repeat split; auto.
  - destruct Hp as [Hc Hk].
    assert (Hstep : exists r w1' w2',
               h X c w1 = (w1', r) /\ h X c w2 = (w2', r) /\
               console w1' = console w2').
    { destruct c; cbn [no_read] in Hc; try contradiction;
        cbn [dataset_handle]; unfold print;
        try (eexists _, _, _; repeat split; eassumption).
      all: try (destruct (k_schema K df));
        try (destruct (k_show K df n truncate)).
      all: eexists _, _, _; repeat split; cbn; congruence. }
    destruct Hstep as (r & w1' & w2' & -> & -> & Hcon').
    destruct r as [e | x].
    + exists [event c (inl e)], (Raised e), w1', w2'. repeat split; auto.
    + destruct (IH x (Hg x) (Hk x) w1' w2'
                  (event c (inr x) :: log1) (event c (inr x) :: log2) Hcon')
        as (new & o & v1 & v2 & -> & -> & Hv).
      exists (new ++ [event c (inr x)]), o, v1, v2.
      rewrite <- !app_assoc. repeat split; auto.
Qed.

(** C7. No call of a run is one of the engine's writers, and on the
    dataset engine a run leaves the stored files and tables exactly as
    they were: what it produces goes to the console only. *)
Theorem script_persists_nothing (World : Type)
    (handle : Handler Conn Session DataFrame Row Exn World)
    (env : Env) (w : World) (ws : Store Dataset) :
  Forall (event_call (fun X c => transient c))
         (trace_of handle (script env) w) /\
  files (world_of h (script env) ws) = files ws /\
  tables (world_of h (script env) ws) = tables ws.
Proof.
  assert (Hp : all_calls (fun X c => transient c) (script env : Program unit)).
  { each_call; reflexivity. }
  split.
  - apply all_calls_trace. exact Hp.
  - unfold world_of.
    destruct (run h (script env) ws []) as [[w' log'] o] eqn:E.
    cbn [fst]. eapply dataset_run_frame; eassumption.
Qed.

(** C9. Two runs on stores that hold the same drivers dataset, and in
    which rides and riders can be loaded, agree on everything that
    follows the five setup calls: same events (calls and answers), same
    console, same outcome. *)
Theorem displays_depend_on_drivers_only (env : Env) (w1 w2 : Store Dataset) :
  files w1 (S3_ROOT env ++ "/duocar/raw/drivers/")%string
  = files w2 (S3_ROOT env ++ "/duocar/raw/drivers/")%string ->
  console w1 = console w2 ->
  readable K w1 (S3_ROOT env ++ "/duocar/raw/rides/")%string = true ->
  readable K w2 (S3_ROOT env ++ "/duocar/raw/rides/")%string = true ->
  readable K w1 (S3_ROOT env ++ "/duocar/raw/riders/")%string = true ->
  readable K w2 (S3_ROOT env ++ "/duocar/raw/riders/")%string = true ->
  skipn 5 (trace_of h (script env) w1) = skipn 5 (trace_of h (script env) w2)
  /\ console (world_of h (script env) w1)
     = console (world_of h (script env) w2)
  /\ outcome_of h (script env) w1 = outcome_of h (script env) w2.
Proof.
  intros Hdrivers Hcon Hrides1 Hrides2 Hriders1 Hriders2.
  unfold readable in *.
  unfold trace_of, outcome_of, world_of.
  cbv beta iota delta [script].
  rewrite !run_Vis. cbn [dataset_handle].
  destruct (k_connect K (CONNECTION_NAME env)) as [e | conn];
    [repeat split; assumption |].
  rewrite !run_Vis. cbn [dataset_handle].
  destruct (k_session K conn) as [e | spark];
    [repeat split; assumption |].
  rewrite !run_Vis. cbn [dataset_handle].
  destruct (files w1 (S3_ROOT env ++ "/duocar/raw/rides/")%string)
    as [d1 |]; [| discriminate].
  destruct (files w2 (S3_ROOT env ++ "/duocar/raw/rides/")%string)
    as [d2 |]; [| discriminate].
  destruct (k_load K d1 true true) as [e | rides1]; [discriminate |].
  destruct (k_load K d2 true true) as [e | rides2]; [discriminate |].
  rewrite !run_Vis. cbn [dataset_handle]. rewrite Hdrivers.
  destruct (files w2 (S3_ROOT env ++ "/duocar/raw/drivers/")%string)
    as [d |]; [| repeat split; assumption].
  destruct (k_load K d true true) as [e | drivers];
    [repeat split; assumption |].
  rewrite !run_Vis. cbn [dataset_handle].
  destruct (files w1 (S3_ROOT env ++ "/duocar/raw/riders/")%string)
    as [d3 |]; [| discriminate].
  destruct (files w2 (S3_ROOT env ++ "/duocar/raw/riders/")%string)
    as [d4 |]; [| discriminate].
  destruct (k_load K d3 true true) as [e | riders1]; [discriminate |].
  destruct (k_load K d4 true true) as [e | riders2]; [discriminate |].
  match goal with
  | |- context [run h ?p w1 ?l1] =>
      match goal with
      | |- context [run h p w2 ?l2] =>
          destruct (dataset_run_console unit p) with
            (w1 := w1) (w2 := w2) (log1 := l1) (log2 := l2)
            as (new & o & v1 & v2 & -> & -> & Hv);
            [each_call | each_call | exact Hcon |]
      end
  end.
  cbn [fst snd]. rewrite !rev_app_distr. cbn [rev app skipn].
  repeat split; assumption.
Qed.

End Datasets.

(** ** Runs on the lazy engine *)

Section Invariants.

Variables Conn Session DataFrame Row Exn World : Type.
Variable handle : Handler Conn Session DataFrame Row Exn World.

Local Notation Program := (Prog Conn Session DataFrame Row Exn).

(** What the engine guarantees of each answer holds of every event. *)
Lemma run_events_satisfy (Q : Event Conn Session DataFrame Row Exn -> Prop) :
  (forall X (c : Call Conn Session DataFrame Row X) w,
      Q (event c (snd (handle X c w)))) ->
  forall (A : Type) (p : Program A) w log w' log' o,
    Forall Q log ->
    run handle p w log = (w', log', o) ->
    Forall Q log'.
Proof.
  intros HQ A p.
  induction p as [A a | A X c k IH | A B body IHb handler IHh k IHk
                 | A B body IHb cleanup IHc k IHk];
    cbn [run]; intros w log w' log' o Hlog Hrun.
  - inversion Hrun; subst; assumption.
  - specialize (HQ X c w).
    destruct (handle X c w) as [w1 [e | x]]; cbn [snd] in HQ.
    + inversion Hrun; subst. constructor; assumption.
    + eapply IH; [| exact Hrun]. constructor; assumption.
  - destruct (run handle body w log) as [[w1 log1] [b | e]] eqn:Eb.
    + eapply IHk; [| exact Hrun]. eapply IHb; eauto.
    + destruct (run handle (handler e) w1 log1) as [[w2 log2] [b | e']] eqn:Eh.
      * eapply IHk; [| exact Hrun]. eapply IHh; [| exact Eh].
        eapply IHb; eauto.
      * inversion Hrun; subst. eapply IHh; [| exact Eh]. eapply IHb; eauto.
  - destruct (run handle body w log) as [[w1 log1] [b | e]] eqn:Eb;
      destruct (run handle cleanup w1 log1) as [[w2 log2] [u | e']] eqn:Ec.
    + eapply IHk; [| exact Hrun]. eapply IHc; [| exact Ec]. eapply IHb; eauto.
    + inversion Hrun; subst. eapply IHc; [| exact Ec]. eapply IHb; eauto.
    + inversion Hrun; subst. eapply IHc; [| exact Ec]. eapply IHb; eauto.
    + inversion Hrun; subst. eapply IHc; [| exact Ec]. eapply IHb; eauto.
Qed.

(** What every call of the program keeps of the world, a run keeps. *)
Lemma run_world_kept (T : Type) (observe : World -> T)
    (P : forall X, Call Conn Session DataFrame Row X -> Prop) :
  (forall X (c : Call Conn Session DataFrame Row X) w,
      P X c -> observe (fst (handle X c w)) = observe w) ->
  forall (A : Type) (p : Program A),
    all_calls P p ->
    forall w log w' log' o,
      run handle p w log = (w', log', o) -> observe w' = observe w.
Proof.
  intros HP A p.
  induction p as [A a | A X c k IH | A B body IHb handler IHh k IHk
                 | A B body IHb cleanup IHc k IHk];
    cbn [all_calls run]; intros Hp w log w' log' o Hrun.
  - inversion Hrun; subst. reflexivity.
  - destruct Hp as [Hc Hk]. specialize (HP X c w Hc).
    destruct (handle X c w) as [w1 [e | x]]; cbn [fst] in HP.
    + inversion Hrun; subst. exact HP.
    + rewrite <- HP. eapply IH; [apply Hk | exact Hrun].
  - destruct Hp as (Hb & Hh & Hk).
    destruct (run handle body w log) as [[w1 log1] [b | e]] eqn:Eb;
      pose proof (IHb Hb _ _ _ _ _ Eb) as H1.
    + rewrite <- H1. eapply IHk; [apply Hk | exact Hrun].
    + destruct (run handle (handler e) w1 log1) as [[w2 log2] [b | e']] eqn:Eh;
        pose proof (IHh e (Hh e) _ _ _ _ _ Eh) as H2.
      * rewrite <- H1, <- H2. eapply IHk; [apply Hk | exact Hrun].
      * inversion Hrun; subst. congruence.
  - destruct Hp as (Hb & Hc & Hk).
    destruct (run handle body w log) as [[w1 log1] [b | e]] eqn:Eb;
      pose proof (IHb Hb _ _ _ _ _ Eb) as H1;
      destruct (run handle cleanup w1 log1) as [[w2 log2] [u | e']] eqn:Ec;
      pose proof (IHc Hc _ _ _ _ _ Ec) as H2.
    + rewrite <- H1, <- H2. eapply IHk; [apply Hk | exact Hrun].
    + inversion Hrun; subst. congruence.
    + inversion Hrun; subst. congruence.
    + inversion Hrun; subst. congruence.
Qed.

End Invariants.

Section Frames.

Variables Conn Session Table Row Exn Dataset : Type.
Variable K : Kernel Conn Session Table Row Exn Dataset.

Local Notation lazy := (lazy_handle K).

(** On the lazy engine a [withColumn] or [select] that succeeds returns its
    receiver with the operation on top. *)
Lemma lazy_answers_new_frames (X : Type) (c : Call Conn Session Plan Row X)
    (w : Store Dataset) :
  new_frame (event c (snd (lazy X c w))).
Proof.
  unfold new_frame.
  destruct c; cbn [lazy_handle derivation selection snd];
    try (split; exact I); unfold analysed.
  - destruct (content K (files w) (Extend df colName c)); cbn; split;
      first [reflexivity | exact I].
  - destruct (content K (files w) (Projection df cols)); cbn; split;
      first [reflexivity | exact I].
Qed.

(** Calls other than the writers leave the stored files as they are. *)
Lemma lazy_keeps_files (X : Type) (c : Call Conn Session Plan Row X)
    (w : Store Dataset) :
  transient c -> files (fst (lazy X c w)) = files w.
Proof.
  destruct c; intros Hc; try discriminate Hc;
    cbn [lazy_handle fst]; unfold analysed, print; try reflexivity.
  all: repeat match goal with
              | |- context [match ?s with inl _ => _ | inr _ => _ end] =>
                  destruct s
              end; reflexivity.
Qed.

Lemma derived_frames_are_new
    (tr : list (Event Conn Session Plan Row Exn)) :
  Forall new_frame tr ->
  Forall (fun d =>
            match d with
            | ((df, colName, c, t), (t', cols, r)) =>
                t = Extend df colName c /\ r = Projection t' cols
            end) (derived tr).
Proof.
  induction tr as [| ev tl IH]; intros H; cbn [derived]; [constructor |].
  inversion H as [| ? ? Hev Htl]; subst. specialize (IH Htl).
  destruct (derivation ev) as [[[[df colName] c] t] |] eqn:Ed;
    [| exact IH].
  destruct tl as [| ev' tl']; [exact IH |].
  destruct (selection ev') as [[[t' cols] r] |] eqn:Es; [| exact IH].
  constructor; [| exact IH].
  inversion Htl as [| ? ? Hev' _]; subst.
  destruct Hev as [Hev _]. destruct Hev' as [_ Hev'].
  rewrite Ed in Hev. rewrite Es in Hev'. split; assumption.
Qed.

(** C10. In every run the three derived frames are built from the frame
    the drivers [read_csv] returned: each [withColumn] is applied to that
    frame, the following [select] to its result, keeping [vehicle_make],
    [vehicle_model] and the new column; a complete run derives
    [vehicle_array], [vehicle_map] and [vehicle_struct] this way.  On the
    lazy engine, where a frame is a plan over stored files, every
    [withColumn] and [select] returns a new frame, each derived frame is
    the drivers frame with its section's two operations on top and nothing
    of another section, and every frame, drivers included, holds after the
    run what it held before. *)
Theorem derived_frames_start_from_drivers
    (DataFrame World : Type)
    (handle : Handler Conn Session DataFrame Row Exn World)
    (env : Env) (w : World) (ws : Store Dataset) :
  match nth_error (loads (trace_of handle (script env) w)) 1 with
  | Some (path, drivers) =>
      path = (S3_ROOT env ++ "/duocar/raw/drivers/")%string /\
      Forall (built_from drivers)
             (derived (trace_of handle (script env) w))
  | None => derived (trace_of handle (script env) w) = []
  end /\
  (forall u, outcome_of handle (script env) w = Done u ->
      map new_column (derived (trace_of handle (script env) w))
      = script_columns) /\
  Forall new_frame (trace_of lazy (script env) ws) /\
  match nth_error (loads (trace_of lazy (script env) ws)) 1 with
  | Some (_, drivers) =>
      Forall (stacked_on drivers) (derived (trace_of lazy (script env) ws))
  | None => derived (trace_of lazy (script env) ws) = []
  end /\
  (forall p : Plan,
      content K (files (world_of lazy (script env) ws)) p
      = content K (files ws) p).
Proof.
  destruct (script_derivations _ _ _ _ _ _ handle env w) as [Hflow Hcols].
  assert (Hnew : Forall new_frame (trace_of lazy (script env) ws)).
  { unfold trace_of.
    destruct (run lazy (script env) ws []) as [[w' log'] o] eqn:E.
    cbn [fst snd]. apply Forall_rev.
    eapply run_events_satisfy; [| constructor | exact E].
    intros X c w0. apply lazy_answers_new_frames. }
  repeat split; try assumption.
  - pose proof (proj1 (script_derivations _ _ _ _ _ _ lazy env ws)) as Hl.
    apply derived_frames_are_new in Hnew.
    destruct (nth_error (loads (trace_of lazy (script env) ws)) 1)
      as [[path drivers] |]; [| exact Hl].
    destruct Hl as [_ Hl].
    rewrite Forall_forall in *. intros d Hd.
    specialize (Hl d Hd). specialize (Hnew d Hd).
    destruct d as [[[[df colName] c] t] [[t' cols] r]].
    cbn [built_from stacked_on] in *.
    destruct Hl as (-> & -> & _). destruct Hnew as (-> & ->). reflexivity.
  - intros p. f_equal. unfold world_of.
    destruct (run lazy (script env) ws []) as [[w' log'] o] eqn:E.
    cbn [fst].
    eapply (run_world_kept _ _ _ _ _ _ lazy _ (@files Dataset)
              (fun X c => transient c)); [| | exact E].
    + intros X c w0. apply lazy_keeps_files.
    + each_call; reflexivity.
Qed.

End Frames.

(** A writer is what changes a frame on the lazy engine: after the rides
    frame is written over the drivers path, the drivers frame no longer
    holds what it held. *)
Example overwriting_changes_a_frame :
  content Fixture.kernel
    (files (world_of Fixture.lazy
              (Vis (write_csv (Scan "s3a://bucket/duocar/raw/rides/" true true)
                              "s3a://bucket/duocar/raw/drivers/")
                   (fun _ => Ret tt))
              Fixture.store))
    (Scan "s3a://bucket/duocar/raw/drivers/" true true)
  <> content Fixture.kernel (files Fixture.store)
       (Scan "s3a://bucket/duocar/raw/drivers/" true true).
Proof. vm_compute. discriminate. Qed.

Lemma derived_frames_start_from_drivers_witness :
  outcome_of Fixture.handle (script Fixture.env) Fixture.store = Done tt /\
  map new_column
      (derived (trace_of Fixture.handle (script Fixture.env) Fixture.store))
  = script_columns.
Proof.
  split; [vm_compute; reflexivity |].
  apply (proj1 (proj2 (derived_frames_start_from_drivers
                         _ _ _ _ _ _ Fixture.kernel _ _ Fixture.handle
                         Fixture.env Fixture.store Fixture.store)) tt).
  vm_compute; reflexivity.
Defined.

(** C9, as stated, fails: with the same drivers and riders, a rides
    dataset that cannot be loaded ends the run before anything is
    displayed, while the run on loadable rides prints 19 blocks. *)
Lemma unloadable_rides_change_the_display :
  ~ (forall w1 w2 : Store (list string),
        (forall p, p <> "s3a://bucket/duocar/raw/rides/" ->
                   p <> "s3a://bucket/duocar/raw/riders/" ->
                   files w1 p = files w2 p) ->
        tables w1 = tables w2 ->
        console w1 = console w2 ->
        console (world_of Fixture.handle (script Fixture.env) w1)
        = console (world_of Fixture.handle (script Fixture.env) w2)).
Proof.
  intros H.
  specialize (H Fixture.store Fixture.store_with_unloadable_rides).
  assert (E : console (world_of Fixture.handle (script Fixture.env)
                         Fixture.store)
              = console (world_of Fixture.handle (script Fixture.env)
                           Fixture.store_with_unloadable_rides)).
  { apply H; [| reflexivity | reflexivity].
    intros p Hrides _. cbn [files Fixture.store
                             Fixture.store_with_unloadable_rides].
    destruct (String.eqb_spec p "s3a://bucket/duocar/raw/rides/");
      [contradiction | reflexivity]. }
  vm_compute in E. discriminate E.
Qed.

(** ** Runs on the fixture *)

(** A complete run: 45 calls, the session stopped by the last one. *)
Example complete_run :
  outcome_of Fixture.handle (script Fixture.env) Fixture.store = Done tt /\
  length (trace_of Fixture.handle (script Fixture.env) Fixture.store) = 45 /\
  existsb is_stop (trace_of Fixture.handle (script Fixture.env) Fixture.store)
  = true.
Proof. vm_compute. repeat split. Qed.

(** The drivers dataset is missing: the fourth call raises, the run ends
    there and the session is never stopped. *)
Example missing_drivers_run :
  outcome_of Fixture.handle (script Fixture.env) Fixture.store_without_drivers
  = Raised "Path does not exist: s3a://bucket/duocar/raw/drivers/" /\
  length (trace_of Fixture.handle (script Fixture.env)
            Fixture.store_without_drivers) = 4 /\
  existsb is_stop (trace_of Fixture.handle (script Fixture.env)
                     Fixture.store_without_drivers) = false.
Proof. vm_compute. repeat split. Qed.

Lemma script_control_flow_witness :
  outcome_of Fixture.handle (script Fixture.env) Fixture.store = Done tt /\
  flat_flow (map step_of
               (trace_of Fixture.handle (script Fixture.env) Fixture.store))
  = true.
Proof.
  split; [vm_compute; reflexivity |].
  apply (proj2 (script_control_flow _ _ _ _ _ _ Fixture.handle Fixture.env
                  Fixture.store) tt).
  vm_compute; reflexivity.
Defined.

Lemma script_reads_three_csv_witness :
  outcome_of Fixture.handle (script Fixture.env) Fixture.store = Done tt /\
  read_requests (trace_of Fixture.handle (script Fixture.env) Fixture.store)
  = [ ("s3a://bucket/duocar/raw/rides/", true, true);
      ("s3a://bucket/duocar/raw/drivers/", true, true);
      ("s3a://bucket/duocar/raw/riders/", true, true) ].
Proof.
  split; [vm_compute; reflexivity |].
  apply (proj2 (proj2 (script_reads_three_csv _ _ _ _ _ _ Fixture.handle
                         Fixture.env Fixture.store)) tt).
  vm_compute; reflexivity.
Defined.

(** C6, as stated, fails: the run on the fixture uses index access
    ([col("vehicle_array")[0]], line 64), which is not one of the nine
    listed primitives. *)
Lemma index_access_is_not_listed :
  ~ (incl (functions_used
             (trace_of Fixture.handle (script Fixture.env) Fixture.store))
          listed_functions /\
     incl listed_functions
          (functions_used
             (trace_of Fixture.handle (script Fixture.env) Fixture.store))).
Proof.
  intros [H _]. specialize (H f_getitem).
  assert (Hin : In f_getitem listed_functions).
  { apply H. vm_compute. tauto. }
  cbn in Hin.
  repeat (destruct Hin as [Hin | Hin]; [discriminate Hin |]).
  exact Hin.
Qed.

Lemma script_column_functions_witness :
  outcome_of Fixture.handle (script Fixture.env) Fixture.store = Done tt /\
  incl listed_functions
       (functions_used
          (trace_of Fixture.handle (script Fixture.env) Fixture.store)) /\
  incl auxiliary_functions
       (functions_used
          (trace_of Fixture.handle (script Fixture.env) Fixture.store)).
Proof.
  split; [vm_compute; reflexivity |].
  apply (proj2 (script_column_functions _ _ _ _ _ _ Fixture.handle
                  Fixture.env Fixture.store) tt).
  vm_compute; reflexivity.
Defined.

(** C8, as stated, fails: no run on the fixture depends on [S3_HOME], so
    the three values are not all consumed. *)
Lemma S3_HOME_is_not_consumed :
  ~ (depends_on Fixture.handle with_S3_ROOT /\
     depends_on Fixture.handle with_S3_HOME /\
     depends_on Fixture.handle with_CONNECTION_NAME).
Proof.
  intros (_ & (env & v & w & H) & _). apply H. reflexivity.
Qed.

Lemma configuration_consumed_at_startup_witness :
  outcome_of Fixture.handle (script Fixture.env) Fixture.store = Done tt /\
  read_requests (trace_of Fixture.handle (script Fixture.env) Fixture.store)
  = script_reads Fixture.env.
Proof.
  split; [vm_compute; reflexivity |].
  apply (proj2 (proj2 (proj2
           (configuration_consumed_at_startup _ _ _ _ _ _ Fixture.handle
              Fixture.env Fixture.store))) tt).
  vm_compute; reflexivity.
Defined.

Lemma displays_depend_on_drivers_only_witness :
  skipn 5 (trace_of Fixture.handle (script Fixture.env) Fixture.store)
  = skipn 5 (trace_of Fixture.handle (script Fixture.env) Fixture.store')
  /\ console (world_of Fixture.handle (script Fixture.env) Fixture.store)
     = console (world_of Fixture.handle (script Fixture.env) Fixture.store')
  /\ outcome_of Fixture.handle (script Fixture.env) Fixture.store
     = outcome_of Fixture.handle (script Fixture.env) Fixture.store'.
Proof.
  apply (displays_depend_on_drivers_only _ _ _ _ _ _ Fixture.kernel
           Fixture.env Fixture.store Fixture.store');
    vm_compute; reflexivity.
Defined.



(** * Data flow of the script *)

Section Wiring.

Variables Conn Session DataFrame Row Exn World : Type.
Variable handle : Handler Conn Session DataFrame Row Exn World.

Local Notation Program := (Prog Conn Session DataFrame Row Exn).

(** The handles and names of a run, call by call. *)
Lemma script_dataflow_facts (env : Env) (w : World) :
  let tr := trace_of handle (script env) w in
  on_session None None tr /\
  displays_latest None tr /\
  projects_derived None None tr /\
  names_resolve [] tr = true /\
  fields_defined None tr = true /\
  indices_in_bounds None tr = true /\
  match outcome_of handle (script env) w with
  | Done _ =>
      flat_map accessed_fields (flat_map event_columns tr)
      = [(Some "vehicle_map", "make"); (Some "vehicle_struct", "make")]
      /\ flat_map accessed_indices (flat_map event_columns tr)
         = [(Some "vehicle_array", 0%Z)]
  | Raised _ => True
  end.
Proof.
  cbv zeta. exec_script handle; cbn [rev app];
    repeat match goal with
           | |- _ /\ _ => split
           end;
    first [reflexivity | exact I | cbn; repeat split; reflexivity].
Qed.

(** Every [show] of a run is asked not to truncate the cells
    ([truncate=False]). *)
Theorem shows_are_untruncated (env : Env) (w : World) :
  Forall (event_call (fun X c => untruncated c))
         (trace_of handle (script env) w).
Proof.
  apply all_calls_trace. each_call; reflexivity.
Qed.

(** In every run the session is requested from the connection that
    [get_connection] returned, and every [read_csv] and the [stop] are
    issued on the session that [get_spark_session] returned. *)
Theorem calls_use_the_acquired_session (env : Env) (w : World) :
  on_session None None (trace_of handle (script env) w).
Proof. apply script_dataflow_facts. Qed.

(** In every run each [printSchema], [show] and [head] is applied to the
    frame the latest [select] returned: the frames read from storage and
    the results of [withColumn] are never displayed as they are. *)
Theorem displays_show_the_latest_projection (env : Env) (w : World) :
  displays_latest None (trace_of handle (script env) w).
Proof. apply script_dataflow_facts. Qed.

(** In every run the [select] after a [withColumn] is applied to that
    [withColumn]'s result, and every later [select] of the section to the
    frame this first [select] returned, never to the result of another
    projection. *)
Theorem projections_start_from_the_derived_frame (env : Env) (w : World) :
  projects_derived None None (trace_of handle (script env) w).
Proof. apply script_dataflow_facts. Qed.

(** In every run the column names resolve: a [withColumn] expression
    refers to [vehicle_make] and [vehicle_model] only, and a [select] to
    these two and the column the section's [withColumn] added. *)
Theorem column_names_resolve (env : Env) (w : World) :
  names_resolve [] (trace_of handle (script env) w) = true.
Proof. apply script_dataflow_facts. Qed.

(** In every run dot notation is applied to the column the section's
    [withColumn] added and reads a key or field that its [create_map] or
    [struct] defined; a complete run reads [make] twice, once from
    [vehicle_map] and once from [vehicle_struct]. *)
Theorem accessed_fields_are_defined (env : Env) (w : World) :
  fields_defined None (trace_of handle (script env) w) = true /\
  match outcome_of handle (script env) w with
  | Done _ =>
      flat_map accessed_fields
               (flat_map event_columns (trace_of handle (script env) w))
      = [(Some "vehicle_map", "make"); (Some "vehicle_struct", "make")]
  | Raised _ => True
  end.
Proof.
  destruct (script_dataflow_facts env w) as (_ & _ & _ & _ & H & _ & H').
  split; [exact H |].
  destruct (outcome_of handle (script env) w); [apply H' | exact I].
Qed.


(** Every [create_map] of a run is given key/value pairs: an even number
    of arguments, a string literal key followed by a column. *)
Theorem create_map_takes_pairs (env : Env) (w : World) :
  Forall (event_call (fun X c => paired c)) (trace_of handle (script env) w).
Proof.
  apply all_calls_trace. each_call; reflexivity.
Qed.

End Wiring.
